(** * nextinspace: the boxed text-layout renderer of [space.py]

    A shallow embedding of [nextinspace/space.py] (classes [Event],
    [Launch], [Rocket] and their [display] methods) together with the
    parts of the Python runtime the methods call: [str.ljust],
    [str.center], [str.expandtabs], [str.strip] and [textwrap.wrap]
    (CPython 3.11 [Lib/textwrap.py], class [TextWrapper] with its default
    options).  [print] is modelled by the list of the lines printed, in
    order. *)

From Stdlib Require Import List NArith Arith Bool Lia.
From Stdlib Require Strings.String Strings.Ascii.
Import ListNotations.
Import String.StringSyntax.
Delimit Scope string_scope with string.

Set Implicit Arguments.

(** ** Python [str] values

    A [str] is a sequence of Unicode code points. *)

Definition char := N.
Definition str := list char.

(** An ASCII literal of the source, as a [str]. *)
Definition lit (s : String.string) : str :=
  map Ascii.N_of_ascii (String.list_ascii_of_string s).
Arguments lit s%_string.

Definition TAB : char := 9%N.
Definition LF : char := 10%N.
Definition CR : char := 13%N.
Definition ESC : char := 27%N.
Definition SPACE : char := 32%N.
Definition HYPHEN : char := 45%N.

(** [s.ljust(width, fill)]: the string itself when it is already
    [width] long or longer, else padded on the right. *)
Definition ljust (s : str) (width : nat) (fill : char) : str :=
  if width <=? length s then s
  else s ++ repeat fill (width - length s).

(** [s.center(width, fill)], CPython's [unicode_center]:
    [marg = width - len; left = marg / 2 + (marg & width & 1)]. *)
Definition center (s : str) (width : nat) (fill : char) : str :=
  if width <=? length s then s
  else
    let marg := width - length s in
    let left := marg / 2 + (if Nat.odd marg && Nat.odd width then 1 else 0) in
    repeat fill left ++ s ++ repeat fill (marg - left).

(** [s.expandtabs(tabsize)], started at column [line_pos]. *)
Fixpoint expandtabs_from (tabsize line_pos : nat) (s : str) : str :=
  match s with
  | [] => []
  | ch :: rest =>
      if (ch =? TAB)%N then
        if 0 <? tabsize then
          let incr := tabsize - line_pos mod tabsize in
          repeat SPACE incr ++ expandtabs_from tabsize (line_pos + incr) rest
        else expandtabs_from tabsize line_pos rest
      else
        ch :: expandtabs_from tabsize
                (if ((ch =? LF) || (ch =? CR))%N then 0 else S line_pos) rest
  end.

Definition expandtabs (s : str) (tabsize : nat) : str :=
  expandtabs_from tabsize 0 s.

(** [str.isspace] on one code point ([_PyUnicode_IsWhitespace]); the
    characters [s.strip()] removes. *)
Definition py_isspace (c : char) : bool :=
  (((9 <=? c) && (c <=? 13)) || ((28 <=? c) && (c <=? 32))
   || (c =? 133) || (c =? 160) || (c =? 5760)
   || ((8192 <=? c) && (c <=? 8202))
   || (c =? 8232) || (c =? 8233) || (c =? 8239) || (c =? 8287)
   || (c =? 12288))%N.

(** [chunk.strip() == ''] *)
Definition strip_is_empty (chunk : str) : bool := forallb py_isspace chunk.

(** The longest prefix of [s] whose characters satisfy [p], and the rest. *)
Fixpoint span (p : char -> bool) (s : str) : str * str :=
  match s with
  | [] => ([], [])
  | c :: rest =>
      if p c then let (a, b) := span p rest in (c :: a, b)
      else ([], s)
  end.

(** [s.rfind(ch, 0, stop)]: the highest index below [stop] holding [ch];
    [None] stands for Python's [-1]. *)
Fixpoint rfind_from (ch : char) (s : str) (stop i : nat) : option nat :=
  match s, stop with
  | c :: rest, S stop' =>
      match rfind_from ch rest stop' (S i) with
      | Some j => Some j
      | None => if (c =? ch)%N then Some i else None
      end
  | _, _ => None
  end.

Definition rfind (s : str) (ch : char) (stop : nat) : option nat :=
  rfind_from ch s stop 0.

(** ** The runtime outside the repository

    What [space.py] takes from its environment and the embedding leaves
    open: the Unicode database behind the regular-expression classes
    [\w] and [\d] beyond ASCII, [datetime.strftime], and [str()] of the
    numeric fields of a rocket. *)

Class Runtime := {
  unicode_word : char -> bool;
  unicode_digit : char -> bool;
  datetime : Type;
  strftime : datetime -> str -> str;
  pyobj : Type;
  py_str : pyobj -> str
}.

(** ** [textwrap] *)

Module textwrap.

(** [_whitespace = '\t\n\x0b\x0c\r '] *)
Definition is_whitespace (c : char) : bool :=
  (((9 <=? c) && (c <=? 13)) || (c =? 32))%N.

Definition ascii_digit (c : char) : bool := ((48 <=? c) && (c <=? 57))%N.

Definition ascii_word (c : char) : bool :=
  (ascii_digit c || ((65 <=? c) && (c <=? 90)) || (c =? 95)
   || ((97 <=? c) && (c <=? 122)))%N.

Definition is_hyphen (c : char) : bool := (c =? HYPHEN)%N.

Section Wrapper.
Context {R : Runtime}.

(** [\w] and [\d] of [re] on a [str] pattern. *)
Definition re_word (c : char) : bool :=
  if (c <? 128)%N then ascii_word c else unicode_word c.

Definition re_digit (c : char) : bool :=
  if (c <? 128)%N then ascii_digit c else unicode_digit c.

(** [letter = r'[^\d\W]'] *)
Definition letter (c : char) : bool := re_word c && negb (re_digit c).

(** [word_punct]: a [\w] character or one of the seven punctuation
    marks exclamation mark, double quote, apostrophe, ampersand, full
    stop, comma, question mark. *)
Definition word_punct (c : char) : bool :=
  (re_word c || (c =? 33) || (c =? 34) || (c =? 39) || (c =? 38)
   || (c =? 46) || (c =? 44) || (c =? 63))%N.

(** [_munge_whitespace] with [expand_tabs], [replace_whitespace] and
    [tabsize = 8]: [text.expandtabs(8).translate(unicode_whitespace_trans)]. *)
Definition translate_whitespace (text : str) : str :=
  map (fun c => if is_whitespace c then SPACE else c) text.

Definition _munge_whitespace (text : str) : str :=
  translate_whitespace (expandtabs text 8).

(** *** [wordsep_re]

    A position in the text is the pair of the characters before it, the
    nearest first, and the characters after it. *)

(** [-{2,} (?=\w)] at a position: the greedy run of hyphens has to be
    taken whole, a hyphen not being a [\w]. *)
Definition dashes_then_word (after : str) : option nat :=
  let (dashes, rest) := span is_hyphen after in
  match rest with
  | c :: _ => if (2 <=? length dashes) && re_word c
              then Some (length dashes) else None
  | [] => None
  end.

(** Second alternative: [(?<=wp) -{2,} (?=\w)]. *)
Definition em_dash_between (before after : str) : option nat :=
  match before with
  | b :: _ => if word_punct b then dashes_then_word after else None
  | [] => None
  end.

(** [(?= lt -? lt)] *)
Definition letters_ahead (after : str) : bool :=
  match after with
  | c1 :: c2 :: rest =>
      letter c1 &&
      (if is_hyphen c2
       then match rest with c3 :: _ => letter c3 | [] => false end
       else letter c2)
  | _ => false
  end.

(** [-(?: (?<=lt{2}-) | (?<=lt-lt-)) (?= lt -? lt)] at a position. *)
Definition hyphen_break (before after : str) : bool :=
  match after with
  | h :: rest =>
      is_hyphen h &&
      (match before with
       | b1 :: b2 :: more =>
           (letter b1 && letter b2)
           || (letter b1 && is_hyphen b2
               && match more with b3 :: _ => letter b3 | [] => false end)
       | _ => false
       end) &&
      letters_ahead rest
  | [] => false
  end.

(** [(?=ws|\Z)] *)
Definition end_of_word (after : str) : bool :=
  match after with
  | c :: _ => is_whitespace c
  | [] => true
  end.

(** [(?<=wp) (?=-{2,}\w)] *)
Definition em_dash_ahead (before after : str) : bool :=
  match before with
  | b :: _ =>
      word_punct b &&
      match dashes_then_word after with Some _ => true | None => false end
  | [] => false
  end.

(** Third alternative, after the lazy [nws+?] has taken the characters
    at the head of [before]: how many more characters the match takes.
    The three ways to finish are tried in the order of the pattern
    before [nws+?] takes one more character. *)
Fixpoint word_rest (before after : str) {struct after} : nat :=
  if hyphen_break before after then 1
  else if end_of_word after then 0
  else if em_dash_ahead before after then 0
  else
    match after with
    | c :: rest => S (word_rest (c :: before) rest)
    | [] => 0
    end.

(** The length of the match of [wordsep_re] at a position; there is one
    at every position before the end of the text. *)
Definition wordsep_match (before after : str) : nat :=
  match after with
  | [] => 0
  | c :: rest =>
      if is_whitespace c then length (fst (span is_whitespace after))
      else
        match em_dash_between before after with
        | Some n => n
        | None => S (word_rest (c :: before) rest)
        end
  end.

(** [_split] with [break_on_hyphens]:
    [[c for c in wordsep_re.split(text) if c]].  The matches tile the
    text, so the pieces [re.split] returns between them are empty and
    the chunks are the successive matches.  Every match takes a
    character at least, so that [fuel], the length of the text, lasts
    (lemma [split_from_fuel] below). *)
Fixpoint split_from (fuel : nat) (before after : str) : list str :=
  match fuel, after with
  | _, [] => []
  | 0, _ :: _ => [after]
  | S fuel', _ :: _ =>
      let n := wordsep_match before after in
      firstn n after
        :: split_from fuel' (rev (firstn n after) ++ before) (skipn n after)
  end.

Definition _split (text : str) : list str :=
  split_from (length text) [] text.

Definition _split_chunks (text : str) : list str :=
  _split (_munge_whitespace text).

(** *** [_wrap_chunks]

    The stack [chunks] (the reversed list, popped from its end) is the
    list whose head is the next chunk. *)

(** The inner [while chunks:] loop, which moves chunks to [cur_line]
    while they fit. *)
Fixpoint fill_line (width : nat) (cur_line : list str) (cur_len : nat)
    (chunks : list str) : list str * nat * list str :=
  match chunks with
  | [] => (cur_line, cur_len, [])
  | chunk :: rest =>
      let l := length chunk in
      if cur_len + l <=? width
      then fill_line width (cur_line ++ [chunk]) (cur_len + l) rest
      else (cur_line, cur_len, chunks)
  end.

(** [_handle_long_word] with [break_long_words] and [break_on_hyphens];
    returns the stack and the line. *)
Definition _handle_long_word (chunks cur_line : list str)
    (cur_len width : nat) : list str * list str :=
  let space_left := if width <? 1 then 1 else width - cur_len in
  match chunks with
  | [] => (chunks, cur_line)
  | chunk :: rest =>
      let end_ :=
        if space_left <? length chunk then
          match rfind chunk HYPHEN space_left with
          | Some hyphen =>
              if (0 <? hyphen)
                 && existsb (fun c => negb (c =? HYPHEN)%N)
                            (firstn hyphen chunk)
              then hyphen + 1 else space_left
          | None => space_left
          end
        else space_left in
      (skipn end_ chunk :: rest, cur_line ++ [firstn end_ chunk])
  end.

Definition is_nonempty {A} (l : list A) : bool :=
  match l with [] => false | _ :: _ => true end.

(** [if drop_whitespace and cur_line and cur_line[-1].strip() == '':
       del cur_line[-1]] *)
Definition drop_trailing (cur_line : list str) : list str :=
  match cur_line with
  | [] => []
  | _ :: _ =>
      if strip_is_empty (last cur_line []) then removelast cur_line
      else cur_line
  end.

(** One round of the outer [while chunks:] loop of [_wrap_chunks], for
    a stack that is not empty: [width] is the room left of the indent
    and [started] tells whether [lines] holds a line already.  Returns
    the stack and [cur_line] as they are at the end of the round. *)
Definition wrap_round (width : nat) (started : bool) (chunks : list str)
    : list str * list str :=
  let chunks1 :=
    match chunks with
    | top :: below => if strip_is_empty top && started then below else chunks
    | [] => chunks
    end in
  let '(cur_line, cur_len, chunks2) := fill_line width [] 0 chunks1 in
  let '(chunks3, cur_line1) :=
    match chunks2 with
    | next :: _ =>
        if width <? length next
        then _handle_long_word chunks2 cur_line cur_len width
        else (chunks2, cur_line)
    | [] => (chunks2, cur_line)
    end in
  (chunks3, drop_trailing cur_line1).

(** The outer loop ([max_lines] is [None]).  Every round shortens the
    stack, so [fuel] above the total length of the chunks is never used
    up (lemma [wrap_loop_fuel] below). *)
Fixpoint wrap_loop (fuel width : nat) (initial_indent subsequent_indent : str)
    (chunks lines : list str) : list str :=
  match fuel with
  | 0 => lines
  | S fuel' =>
      match chunks with
      | [] => lines
      | _ :: _ =>
          let indent :=
            if is_nonempty lines then subsequent_indent
            else initial_indent in
          let '(chunks', cur_line) :=
            wrap_round (width - length indent) (is_nonempty lines) chunks in
          wrap_loop fuel' width initial_indent subsequent_indent chunks'
            (if is_nonempty cur_line
             then lines ++ [indent ++ concat cur_line]
             else lines)
      end
  end.

Definition total_len (chunks : list str) : nat := length (concat chunks).

(** [_wrap_chunks].  Lengths and widths are natural numbers: at both
    calls of [space.py] the width is 88 and the indent is shorter, so
    that neither the [ValueError] for a width of zero or less nor a
    negative room left of the indent is met. *)
Definition _wrap_chunks (width : nat) (initial_indent subsequent_indent : str)
    (chunks : list str) : list str :=
  wrap_loop (S (total_len chunks)) width initial_indent subsequent_indent
            chunks [].

(** [textwrap.wrap(text, width=width, initial_indent=...,
    subsequent_indent=...)] *)
Definition wrap (text : str) (width : nat)
    (initial_indent subsequent_indent : str) : list str :=
  _wrap_chunks width initial_indent subsequent_indent (_split_chunks text).

End Wrapper.
End textwrap.

(** ** [colorama]

    [colorama.ansi]: [code_to_chars(code) = CSI + str(code) + 'm'] with
    [CSI = '\033[']; [Fore.GREEN = 32], [Fore.CYAN = 36],
    [Fore.RESET = 39], [Style.BRIGHT = 1], [Style.RESET_ALL = 0]. *)

Module Fore.
Definition GREEN : str := ESC :: lit "[32m".
Definition CYAN : str := ESC :: lit "[36m".
Definition RESET : str := ESC :: lit "[39m".
End Fore.

Module Style.
Definition BRIGHT : str := ESC :: lit "[1m".
Definition RESET_ALL : str := ESC :: lit "[0m".
End Style.

(** ** [space.py] *)

Module space.

(** Box-drawing glyphs of the source: U+2502, U+2500, U+250C, U+2510,
    U+2514, U+2518, U+251C, U+2524. *)
Definition BOX_V : char := 9474%N.
Definition BOX_H : char := 9472%N.
Definition BOX_DOWN_RIGHT : char := 9484%N.
Definition BOX_DOWN_LEFT : char := 9488%N.
Definition BOX_UP_RIGHT : char := 9492%N.
Definition BOX_UP_LEFT : char := 9496%N.
Definition BOX_V_RIGHT : char := 9500%N.
Definition BOX_V_LEFT : char := 9508%N.

Definition MAX_LINE_LENGTH : nat := 88.
Definition CHART_WIDTH : nat := 59.
Definition DATE_FMAT_STR : str := lit "%a %B %d, %Y %I:%M %p %Z".

Inductive Verbosity := QUIET | NORMAL | VERBOSE.

Definition Verbosity_value (v : Verbosity) : nat :=
  match v with QUIET => 1 | NORMAL => 2 | VERBOSE => 3 end.

(** [verbosity == other] on enum members *)
Definition Verbosity_eqb (a b : Verbosity) : bool :=
  Verbosity_value a =? Verbosity_value b.

Section Display.
Context {R : Runtime}.

Record Event := {
  mission_name : str;
  location : str;
  mission_date : datetime;
  mission_description : str;
  mission_type : str
}.

Record Rocket := {
  name : str;
  payload_leo : pyobj;
  payload_gto : pyobj;
  liftoff_thrust : pyobj;
  liftoff_mass : pyobj;
  max_stages : pyobj;
  height : pyobj;
  successful_launches : pyobj;
  consecutive_successful_launches : pyobj;
  failed_launches : pyobj;
  maiden_flight_date : datetime
}.

(** [class Launch(Event)]: the fields of the [Event] and the rocket. *)
Record Launch := {
  event : Event;
  rocket : Rocket
}.

(** [FILLER = "│" + " " * MAX_LINE_LENGTH + "│"] *)
Definition FILLER : str :=
  [BOX_V] ++ repeat SPACE MAX_LINE_LENGTH ++ [BOX_V].

(** The five prints shared by both [display] methods up to the label of
    the type line: mission name, location, filler, date, mission type. *)
Definition mission_name_lines (self : Event) : list str :=
  textwrap.wrap (mission_name self) MAX_LINE_LENGTH [] [].

Definition print_mission_name (line : str) : str :=
  [BOX_V] ++ Style.BRIGHT ++ Fore.CYAN
    ++ ljust line MAX_LINE_LENGTH SPACE ++ Style.RESET_ALL ++ [BOX_V].

Definition print_location (self : Event) : str :=
  [BOX_V] ++ Fore.CYAN ++ ljust (location self) MAX_LINE_LENGTH SPACE
    ++ Fore.RESET ++ [BOX_V].

Definition print_date (self : Event) : str :=
  [BOX_V] ++ Fore.GREEN
    ++ ljust (lit "    " ++ strftime (mission_date self) DATE_FMAT_STR)
             MAX_LINE_LENGTH SPACE
    ++ Fore.RESET ++ [BOX_V].

Definition print_type (label : str) (self : Event) : str :=
  [BOX_V] ++ ljust (label ++ mission_type self) MAX_LINE_LENGTH SPACE
    ++ [BOX_V].

Definition mission_description_lines (self : Event) : list str :=
  textwrap.wrap (mission_description self) MAX_LINE_LENGTH
                (lit "    ") (lit "    ").

Definition print_description (line : str) : str :=
  [BOX_V] ++ ljust line MAX_LINE_LENGTH SPACE ++ [BOX_V].

(** [Event.display(self, verbosity)]: the lines printed. *)
Definition Event_display (self : Event) (verbosity : Verbosity) : list str :=
  map print_mission_name (mission_name_lines self)
  ++ [print_location self]
  ++ [FILLER]
  ++ [print_date self]
  ++ [print_type (lit "    Event Type: ") self]
  ++ (if negb (Verbosity_eqb verbosity QUIET) then
        [FILLER]
        ++ map print_description (mission_description_lines self)
      else []).

(** [Rocket._generate_chart_line(left, right)] *)
Definition _generate_chart_line (left right : str) : str :=
  let row := center left (CHART_WIDTH / 2) SPACE ++ [BOX_V]
             ++ center right (CHART_WIDTH / 2) SPACE in
  [BOX_V]
  ++ center ([BOX_V] ++ center row CHART_WIDTH SPACE ++ [BOX_V])
            MAX_LINE_LENGTH SPACE
  ++ [BOX_V].

(** A horizontal rule of the chart between two joints, centered in the
    outer box: ["│" + (l + "─" * CHART_WIDTH + r).center(88, " ") + "│"]. *)
Definition chart_rule (l r : char) : str :=
  [BOX_V]
  ++ center ([l] ++ repeat BOX_H CHART_WIDTH ++ [r]) MAX_LINE_LENGTH SPACE
  ++ [BOX_V].

Definition INTER_CELL_DIVIDER : str := chart_rule BOX_V_RIGHT BOX_V_LEFT.

Definition chart_title (self : Rocket) : str :=
  [BOX_V]
  ++ center ([BOX_V] ++ center (name self) CHART_WIDTH SPACE ++ [BOX_V])
            MAX_LINE_LENGTH SPACE
  ++ [BOX_V].

(** [Rocket.display(self)]: the lines printed. *)
Definition Rocket_display (self : Rocket) : list str :=
  [ chart_rule BOX_DOWN_RIGHT BOX_DOWN_LEFT;
    chart_title self;
    INTER_CELL_DIVIDER;
    _generate_chart_line
      (lit "Height: " ++ py_str (height self) ++ lit " m")
      (lit "Mass to LEO: " ++ py_str (payload_leo self) ++ lit " kg");
    INTER_CELL_DIVIDER;
    _generate_chart_line
      (lit "Max Stages " ++ py_str (max_stages self))
      (lit "Liftoff Thrust: " ++ py_str (liftoff_thrust self) ++ lit " kN");
    INTER_CELL_DIVIDER;
    _generate_chart_line
      (lit "Mass to GTO: " ++ py_str (payload_gto self) ++ lit " kg")
      (lit "Liftoff Mass: " ++ py_str (liftoff_mass self) ++ lit " Tonnes");
    INTER_CELL_DIVIDER;
    _generate_chart_line
      (lit "Launch Successes: " ++ py_str (successful_launches self))
      (lit "Maiden Flight: "
       ++ strftime (maiden_flight_date self) (lit "%Y-%m-%d"));
    INTER_CELL_DIVIDER;
    _generate_chart_line
      (lit "Consecutive Successes: "
       ++ py_str (consecutive_successful_launches self))
      (lit "Failed Launches: " ++ py_str (failed_launches self));
    chart_rule BOX_UP_RIGHT BOX_UP_LEFT ].

(** [Launch.display(self, verbosity)]: the lines printed. *)
Definition Launch_display (self : Launch) (verbosity : Verbosity) : list str :=
  map print_mission_name (mission_name_lines (event self))
  ++ [print_location (event self)]
  ++ [FILLER]
  ++ [print_date (event self)]
  ++ [print_type (lit "    Launch Type: ") (event self)]
  ++ (if negb (Verbosity_eqb verbosity QUIET) then
        (if Verbosity_eqb verbosity VERBOSE then
           [FILLER] ++ Rocket_display (rocket self)
         else [])
        ++ [FILLER]
        ++ map print_description (mission_description_lines (event self))
      else []).

End Display.
End space.


(** ** Notions the properties are stated with *)

(** No chunk of the stack is the empty string. *)
Definition nonempty_chunks (chunks : list str) : Prop :=
  Forall (fun chunk : str => chunk <> []) chunks.

(** The characters of a string that are not whitespace, in order. *)
Definition nonspace (s : str) : str :=
  filter (fun c => negb (py_isspace c)) s.







(** [t] is [s] centered in a field of [width] characters: padded with
    spaces on both sides, the two paddings differing by one at most; a
    string as long as the field or longer is left as it is. *)
Definition centered_in (s : str) (width : nat) (t : str) : Prop :=
  exists l r,
    t = repeat SPACE l ++ s ++ repeat SPACE r
    /\ l + r = width - length s /\ l <= r + 1 /\ r <= l + 1.



(** [l1] is an in-order line-subset of [l2]: [l2] with some lines left
    out. *)
Inductive sublist {A : Type} : list A -> list A -> Prop :=
| sublist_nil : sublist [] []
| sublist_skip (x : A) (l1 l2 : list A) :
    sublist l1 l2 -> sublist l1 (x :: l2)
| sublist_cons (x : A) (l1 l2 : list A) :
    sublist l1 l2 -> sublist (x :: l1) (x :: l2).

Definition strict_sublist {A : Type} (l1 l2 : list A) : Prop :=
  sublist l1 l2 /\ l1 <> l2.








(** ** A terminal

    What a terminal shows of a line: the printable characters, each in
    the style in force when it arrives.  [ESC [ n m] (select graphic
    rendition, parameters separated by [;]) changes the style; other
    escape sequences change nothing that is modelled. *)

Module Terminal.








End Terminal.


(** ** A runtime for closed examples

    Dates and numbers are carried as the text [strftime] and [str()]
    give for them.  The examples are ASCII, so that the Unicode tables
    are not consulted. *)

Definition demo_runtime : Runtime :=
  {| unicode_word := fun _ => false;
     unicode_digit := fun _ => false;
     datetime := str;
     strftime := fun d _ => d;
     pyobj := str;
     py_str := fun x => x |}.

Section Examples.
Context {R : Runtime}.
Import space.

(** The left and right cell contents of the five data rows, as the
    specification lists them. *)
Definition panel_cells (r : Rocket) : list (str * str) :=
  [ (lit "Height: " ++ py_str (height r) ++ lit " m",
     lit "Mass to LEO: " ++ py_str (payload_leo r) ++ lit " kg");
    (lit "Max Stages " ++ py_str (max_stages r),
     lit "Liftoff Thrust: " ++ py_str (liftoff_thrust r) ++ lit " kN");
    (lit "Mass to GTO: " ++ py_str (payload_gto r) ++ lit " kg",
     lit "Liftoff Mass: " ++ py_str (liftoff_mass r) ++ lit " Tonnes");
    (lit "Launch Successes: " ++ py_str (successful_launches r),
     lit "Maiden Flight: " ++ strftime (maiden_flight_date r) (lit "%Y-%m-%d"));
    (lit "Consecutive Successes: "
       ++ py_str (consecutive_successful_launches r),
     lit "Failed Launches: " ++ py_str (failed_launches r)) ].

(** The example event of the specification; the date is
    2023-11-01T14:00:00 UTC. *)
Definition example_event (date : datetime) : Event :=
  {| mission_name := lit "Starlink Group 6-10";
     location := lit "Cape Canaveral SFS, FL, USA";
     mission_date := date;
     mission_description := lit "A Falcon 9 rocket will launch...";
     mission_type := lit "Communications" |}.





End Examples.

Definition demo_event : space.Event (R := demo_runtime) :=
  example_event (R := demo_runtime) (lit "Wed November 01, 2023 02:00 PM UTC").




Definition demo_rocket : space.Rocket (R := demo_runtime) :=
  @space.Build_Rocket demo_runtime
    (lit "Falcon 9 Block 5")   (* name *)
    (lit "22800")              (* payload_leo *)
    (lit "8300")               (* payload_gto *)
    (lit "7607")               (* liftoff_thrust *)
    (lit "549")                (* liftoff_mass *)
    (lit "2")                  (* max_stages *)
    (lit "70.0")               (* height *)
    (lit "210")                (* successful_launches *)
    (lit "180")                (* consecutive_successful_launches *)
    (lit "1")                  (* failed_launches *)
    (lit "2018-05-11").        (* maiden_flight_date *)






(** The length of the longest stretch of characters of [s] none of
    which is a [textwrap] whitespace character, [cur] such characters
    standing before [s]. *)
Fixpoint longest_run_from (cur : nat) (s : str) : nat :=
  match s with
  | [] => cur
  | c :: rest =>
      if textwrap.is_whitespace c
      then Nat.max cur (longest_run_from 0 rest)
      else longest_run_from (S cur) rest
  end.


(** A chunk of spaces only. *)
Definition blank (chunk : str) : Prop := Forall (fun c => c = SPACE) chunk.







(** ** Notions of the further properties *)

(** The text can stand on one line of [room] characters as it is: it is
    not empty and at most [room] long, its only whitespace is the
    space, and it does not end in whitespace. *)
Definition one_line (room : nat) (text : str) : bool :=
  textwrap.is_nonempty text
  && (length text <=? room)
  && forallb (fun c => negb (textwrap.is_whitespace c) || (c =? SPACE)%N) text
  && negb (py_isspace (last text SPACE)).

(** The joints and borders of the chart. *)
Definition chart_joints : list char :=
  [space.BOX_V; space.BOX_DOWN_RIGHT; space.BOX_DOWN_LEFT; space.BOX_UP_RIGHT;
   space.BOX_UP_LEFT; space.BOX_V_RIGHT; space.BOX_V_LEFT].

(** A line of the panel in its place: after the outer border 13 spaces,
    the chart from its left joint to its right joint, [CHART_WIDTH]
    characters between them, 14 spaces and the outer border. *)
Definition aligned_band (line : str) : Prop :=
  exists a inner b,
    line = [space.BOX_V] ++ repeat SPACE 13 ++ [a] ++ inner ++ [b]
           ++ repeat SPACE 14 ++ [space.BOX_V]
    /\ length inner = space.CHART_WIDTH
    /\ In a chart_joints /\ In b chart_joints.

(** A data row in its place: between the chart borders two cells of 29
    characters, the contents centered in them, and the divider. *)
Definition aligned_row (left right line : str) : Prop :=
  exists cell_l cell_r,
    line = [space.BOX_V] ++ repeat SPACE 13
           ++ [space.BOX_V] ++ cell_l ++ [space.BOX_V] ++ cell_r
           ++ [space.BOX_V] ++ repeat SPACE 14 ++ [space.BOX_V]
    /\ centered_in left 29 cell_l /\ length cell_l = 29
    /\ centered_in right 29 cell_r /\ length cell_r = 29.


(** * Properties *)

(** ** Python strings *)

Lemma ljust_pad (s : str) (width : nat) (fill : char) :
  ljust s width fill = s ++ repeat fill (width - length s).
Proof.
  unfold ljust. destruct (Nat.leb_spec width (length s)) as [H|H]; [|reflexivity].
  replace (width - length s) with 0 by lia. now rewrite app_nil_r.
Qed.

Lemma length_ljust (s : str) (width : nat) (fill : char) :
  length (ljust s width fill) = Nat.max (length s) width.
Proof. rewrite ljust_pad, length_app, repeat_length. lia. Qed.

Lemma length_center (s : str) (width : nat) (fill : char) :
  length (center s width fill) = Nat.max (length s) width.
Proof.
  unfold center. destruct (Nat.leb_spec width (length s)) as [H|H]; [lia|].
  cbv zeta. rewrite !length_app, !repeat_length.
  set (marg := width - length s).
  assert (Hh : marg / 2 + (if Nat.odd marg && Nat.odd width then 1 else 0) <= marg).
  { pose proof (Nat.div_mod_eq marg 2) as E.
    pose proof (Nat.mod_upper_bound marg 2 ltac:(lia)) as U.
    destruct (Nat.odd marg) eqn:Ho; cbn [andb]; [|lia].
    assert (marg <> 0) by (intros E0; rewrite E0 in Ho; discriminate).
    destruct (Nat.odd width); lia. }
  unfold marg in *. lia.
Qed.

(** ** [textwrap]: the chunks *)

Section SplitFacts.
Context {R : Runtime}.
Import textwrap.


Lemma span_length_pos (p : char -> bool) (c : char) (s : str) :
  p c = true -> 1 <= length (fst (span p (c :: s))).
Proof. intros H. simpl. rewrite H. destruct (span p s). simpl. lia. Qed.

Lemma dashes_then_word_pos (after : str) (n : nat) :
  dashes_then_word after = Some n -> 2 <= n.
Proof.
  unfold dashes_then_word. destruct (span is_hyphen after) as [d r].
  destruct r as [|c r]; [discriminate|].
  destruct (Nat.leb_spec 2 (length d)); simpl; [|discriminate].
  destruct (re_word c); [|discriminate]. intros [= <-]. assumption.
Qed.

Lemma wordsep_match_pos (before : str) (c : char) (rest : str) :
  1 <= wordsep_match before (c :: rest).
Proof.
  unfold wordsep_match. destruct (is_whitespace c) eqn:Hc.
  - now apply span_length_pos.
  - destruct (em_dash_between before (c :: rest)) as [n|] eqn:E; [|lia].
    unfold em_dash_between in E. destruct before as [|b ?]; [discriminate|].
    destruct (word_punct b); [|discriminate].
    apply dashes_then_word_pos in E. lia.
Qed.

(** The chunks are the text, cut into pieces. *)
Lemma split_from_concat (fuel : nat) (before after : str) :
  concat (split_from fuel before after) = after.
Proof.
  revert before after. induction fuel as [|fuel IH]; intros before after.
  - destruct after; simpl; [reflexivity|now rewrite app_nil_r].
  - destruct after as [|c rest]; [reflexivity|].
    cbn [split_from]. cbv zeta. cbn [concat]. rewrite IH.
    apply firstn_skipn.
Qed.

(** No chunk is empty as long as the fuel lasts, and it does. *)
Lemma split_from_nonempty (fuel : nat) (before after : str) :
  Forall (fun chunk => chunk <> []) (split_from fuel before after).
Proof.
  revert before after. induction fuel as [|fuel IH]; intros before after.
  - destruct after; simpl; constructor; [discriminate|constructor].
  - destruct after as [|c rest]; [constructor|].
    cbn [split_from]. cbv zeta. constructor; [|apply IH].
    pose proof (wordsep_match_pos before c rest) as Hp.
    destruct (wordsep_match before (c :: rest)); [lia|]. discriminate.
Qed.

Lemma split_from_fuel (n m : nat) (before after : str) :
  length after <= n -> length after <= m ->
  split_from n before after = split_from m before after.
Proof.
  revert m before after. induction n as [|n IH]; intros m before after Hn Hm.
  - destruct after; [|simpl in Hn; lia]. now destruct m.
  - destruct after as [|c rest]; [now destruct m|].
    destruct m as [|m]; [simpl in Hm; lia|].
    cbn [split_from]. cbv zeta. f_equal.
    pose proof (wordsep_match_pos before c rest) as Hp.
    cbn [length] in Hn, Hm.
    apply IH; rewrite length_skipn; cbn [length]; lia.
Qed.

Lemma _split_concat (text : str) : concat (_split text) = text.
Proof. apply split_from_concat. Qed.

Lemma _split_nonempty (text : str) :
  Forall (fun chunk => chunk <> []) (_split text).
Proof. apply split_from_nonempty. Qed.

End SplitFacts.

(** ** [textwrap]: the lines *)

Section WrapFacts.
Context {R : Runtime}.
Import textwrap.

Lemma nonspace_app (s t : str) : nonspace (s ++ t) = nonspace s ++ nonspace t.
Proof. apply filter_app. Qed.

Lemma nonspace_strip_is_empty (s : str) :
  strip_is_empty s = true -> nonspace s = [].
Proof.
  unfold strip_is_empty, nonspace. induction s as [|c s IH]; simpl; [reflexivity|].
  intros H. apply andb_true_iff in H as [Hc Hs]. rewrite Hc. simpl. auto.
Qed.

Lemma total_len_app (a b : list str) :
  total_len (a ++ b) = total_len a + total_len b.
Proof. unfold total_len. now rewrite concat_app, length_app. Qed.

Lemma total_len_cons (c : str) (l : list str) :
  total_len (c :: l) = length c + total_len l.
Proof. unfold total_len. simpl. now rewrite length_app. Qed.

(** The inner loop moves a prefix of the stack to the line, keeps
    [cur_len] the length of the line, and stops at a chunk that does not
    fit. *)
Lemma fill_line_spec (width : nat) (chunks : list str) :
  forall (cur_line : list str) (cur_len : nat),
  exists taken rest,
    fill_line width cur_line cur_len chunks
      = (cur_line ++ taken, cur_len + total_len taken, rest)
    /\ chunks = taken ++ rest
    /\ (cur_len <= width -> cur_len + total_len taken <= width)
    /\ match rest with
       | next :: _ => width < cur_len + total_len taken + length next
       | [] => True
       end.
Proof.
  induction chunks as [|c chunks IH]; intros cur_line cur_len.
  - exists [], []. simpl. rewrite app_nil_r. unfold total_len. simpl.
    rewrite Nat.add_0_r. auto.
  - simpl. destruct (Nat.leb_spec (cur_len + length c) width) as [Hfit|Hfit].
    + destruct (IH (cur_line ++ [c]) (cur_len + length c))
        as (taken & rest & E & -> & Hle & Hnext).
      exists (c :: taken), rest. rewrite E, <- app_assoc. simpl.
      rewrite total_len_cons, Nat.add_assoc.
      repeat split; auto.
    + exists [], (c :: chunks). rewrite app_nil_r. unfold total_len at 1 2. simpl.
      rewrite !Nat.add_0_r. repeat split; auto.
Qed.

Lemma rfind_from_bound (ch : char) (s : str) :
  forall stop i j, rfind_from ch s stop i = Some j -> i <= j < i + stop.
Proof.
  induction s as [|c s IH]; intros stop i j; simpl; [discriminate|].
  destruct stop as [|stop]; [discriminate|].
  destruct (rfind_from ch s stop (S i)) as [k|] eqn:E.
  - intros [= <-]. apply IH in E. lia.
  - destruct (c =? ch)%N; [|discriminate]. intros [= <-]. lia.
Qed.

(** A chunk too long for any line is cut: the line gets a piece that
    fills it at most, the rest of the chunk stays on the stack. *)
Lemma _handle_long_word_spec (c : str) (rest cur_line : list str)
    (cur_len width : nat) :
  1 <= width -> cur_len <= width -> width < length c ->
  exists e,
    _handle_long_word (c :: rest) cur_line cur_len width
      = (skipn e c :: rest, cur_line ++ [firstn e c])
    /\ e <= width - cur_len
    /\ (cur_len = 0 -> 1 <= e).
Proof.
  intros Hw Hlen Hlong. unfold _handle_long_word.
  destruct (Nat.ltb_spec width 1) as [?|_]; [lia|].
  destruct (Nat.ltb_spec (width - cur_len) (length c)) as [_|?]; [|lia].
  destruct (rfind c HYPHEN (width - cur_len)) as [hyphen|] eqn:Eh.
  - apply rfind_from_bound in Eh.
    destruct ((0 <? hyphen)
              && existsb (fun c0 => negb (c0 =? HYPHEN)%N) (firstn hyphen c)).
    + eexists. split; [reflexivity|]. lia.
    + eexists. split; [reflexivity|]. lia.
  - eexists. split; [reflexivity|]. lia.
Qed.

(** Dropping the last chunk of the line when it is blank takes away
    whitespace only. *)
Lemma drop_trailing_spec (cur_line : list str) :
  exists dropped,
    cur_line = drop_trailing cur_line ++ dropped
    /\ nonspace (concat dropped) = [].
Proof.
  unfold drop_trailing. destruct cur_line as [|c l]; [now exists []|].
  destruct (strip_is_empty (last (c :: l) [])) eqn:E.
  - exists [last (c :: l) []]. split.
    + apply app_removelast_last. discriminate.
    + simpl. rewrite app_nil_r. now apply nonspace_strip_is_empty.
  - exists []. now rewrite app_nil_r.
Qed.

Lemma nonempty_chunks_pos (c : str) (l : list str) :
  nonempty_chunks (c :: l) -> 1 <= length c.
Proof. intros H. inversion H; subst. destruct c; [congruence|simpl; lia]. Qed.

(** One round of the outer loop: what is on the line and what is left on
    the stack are the stack of before, up to dropped whitespace; the
    line fits; the stack got shorter. *)
Lemma wrap_round_spec (width : nat) (started : bool) (chunks : list str) :
  1 <= width -> chunks <> [] -> nonempty_chunks chunks ->
  exists chunks' cur_line,
    wrap_round width started chunks = (chunks', cur_line)
    /\ total_len chunks' < total_len chunks
    /\ nonempty_chunks chunks'
    /\ total_len cur_line <= width
    /\ nonspace (concat cur_line) ++ nonspace (concat chunks')
       = nonspace (concat chunks).
Proof.
  intros Hw Hne Hall. unfold wrap_round.
  destruct chunks as [|top below]; [congruence|]. clear Hne.
  set (chunks1 := if strip_is_empty top && started then below else top :: below).
  assert (H1 : nonempty_chunks chunks1
               /\ nonspace (concat chunks1) = nonspace (concat (top :: below))
               /\ (chunks1 = top :: below \/ total_len chunks1 < total_len (top :: below))).
  { unfold chunks1. destruct (strip_is_empty top) eqn:Et; simpl.
    - destruct started; simpl.
      + split; [now inversion Hall|]. split.
        * rewrite nonspace_app, (nonspace_strip_is_empty _ Et). reflexivity.
        * right. rewrite total_len_cons.
          pose proof (nonempty_chunks_pos Hall). lia.
      + auto.
    - auto. }
  destruct H1 as (Hall1 & Hns1 & Hprog1). rewrite <- Hns1.
  assert (Hle1 : total_len chunks1 <= total_len (top :: below)).
  { destruct Hprog1 as [->|?]; lia. }
  clearbody chunks1.
  destruct (fill_line_spec width chunks1 [] 0)
    as (taken & chunks2 & E & -> & Hfit & Hnext).
  rewrite E. simpl app. simpl Nat.add. specialize (Hfit (Nat.le_0_l _)).
  simpl in Hfit. simpl in Hnext.
  assert (Hall2 : nonempty_chunks chunks2).
  { unfold nonempty_chunks in *. apply Forall_app in Hall1. tauto. }
  assert (Hstep : exists chunks3 cur_line1,
     match chunks2 with
     | next :: _ =>
         if width <? length next
         then _handle_long_word chunks2 taken (total_len taken) width
         else (chunks2, taken)
     | [] => (chunks2, taken)
     end = (chunks3, cur_line1)
     /\ concat cur_line1 ++ concat chunks3 = concat (taken ++ chunks2)
     /\ nonempty_chunks chunks3
     /\ total_len cur_line1 <= width
     /\ (taken ++ chunks2 = top :: below -> 1 <= total_len cur_line1)).
  { destruct chunks2 as [|next more].
    - exists [], taken. rewrite app_nil_r. simpl. rewrite app_nil_r.
      repeat split; auto. intros ->. rewrite total_len_cons.
      pose proof (nonempty_chunks_pos Hall). lia.
    - destruct (Nat.ltb_spec width (length next)) as [Hlong|Hshort].
      + destruct (_handle_long_word_spec next more taken Hw Hfit Hlong)
          as (e & Eh & He & Hpos).
        rewrite Eh. do 2 eexists. split; [reflexivity|].
        rewrite !concat_app. simpl. rewrite app_nil_r, <- app_assoc.
        rewrite (app_assoc (firstn e next)), firstn_skipn.
        split; [reflexivity|]. split.
        * constructor; [|now inversion Hall2].
          intros E0. apply (f_equal (@length _)) in E0.
          rewrite length_skipn in E0. simpl in E0. lia.
        * assert (Hf : total_len (taken ++ [firstn e next])
                       = total_len taken + e).
          { rewrite total_len_app. f_equal. unfold total_len. simpl.
            rewrite app_nil_r, length_firstn. lia. }
          rewrite Hf. split; [lia|].
          intros Eq. destruct taken as [|t ts].
          -- assert (1 <= e) by (apply Hpos; reflexivity). lia.
          -- simpl in Eq. injection Eq as -> _. rewrite total_len_cons.
             pose proof (nonempty_chunks_pos Hall). lia.
      + exists (next :: more), taken. repeat split; auto.
        * now rewrite concat_app.
        * intros Eq. destruct taken as [|t ts].
          -- unfold total_len in Hnext. simpl in Hnext. lia.
          -- simpl in Eq. injection Eq as -> _. rewrite total_len_cons.
             pose proof (nonempty_chunks_pos Hall). lia. }
  destruct Hstep as (chunks3 & cur_line1 & E3 & Hcat & Hall3 & Hlen3 & Hpos3).
  rewrite E3.
  destruct (drop_trailing_spec cur_line1) as (dropped & Ed & Hd).
  exists chunks3, (drop_trailing cur_line1). split; [reflexivity|].
  assert (Hsum : total_len cur_line1 + total_len chunks3
                 = total_len (taken ++ chunks2)).
  { unfold total_len. rewrite <- Hcat, length_app. reflexivity. }
  split.
  { destruct Hprog1 as [Eq|Hlt]; [specialize (Hpos3 Eq)|]; lia. }
  split; [assumption|]. split.
  { rewrite Ed in Hlen3. rewrite total_len_app in Hlen3. lia. }
  rewrite <- Hcat, nonspace_app. f_equal.
  rewrite Ed at 2. rewrite concat_app, nonspace_app, Hd. now rewrite app_nil_r.
Qed.


(** The outer loop does not depend on its fuel, once above the total
    length of the chunks: the loop ends before the fuel does. *)
Lemma wrap_loop_fuel (width : nat) (initial_indent subsequent_indent : str) :
  length initial_indent < width -> length subsequent_indent < width ->
  forall n m chunks lines,
    nonempty_chunks chunks ->
    total_len chunks < n -> total_len chunks < m ->
    wrap_loop n width initial_indent subsequent_indent chunks lines
    = wrap_loop m width initial_indent subsequent_indent chunks lines.
Proof.
  intros Hi Hs. induction n as [|n IH]; intros m chunks lines Hall Hn Hm; [lia|].
  destruct m as [|m]; [lia|]. cbn [wrap_loop].
  destruct chunks as [|top below]; [reflexivity|]. cbv zeta.
  set (indent := if is_nonempty lines then subsequent_indent else initial_indent).
  assert (Hw : 1 <= width - length indent).
  { unfold indent. destruct (is_nonempty lines); lia. }
  destruct (wrap_round_spec (is_nonempty lines) Hw
              (chunks := top :: below) ltac:(discriminate) Hall)
    as (chunks' & cur_line & E & Hlt & Hall' & _).
  rewrite E. apply IH; [assumption|lia|lia].
Qed.










(** *** Text of whitespace only *)












End WrapFacts.

(** ** [space.py]: the layout of the panel *)

Section PanelFacts.
Context {R : Runtime}.
Import space.

Lemma center_centered_in (s : str) (width : nat) :
  centered_in s width (center s width SPACE).
Proof.
  unfold centered_in, center.
  destruct (Nat.leb_spec width (length s)) as [H|H].
  - exists 0, 0. simpl. rewrite app_nil_r. repeat split; lia.
  - cbv zeta. set (marg := width - length s).
    set (left := marg / 2 + (if Nat.odd marg && Nat.odd width then 1 else 0)).
    exists left, (marg - left). split; [reflexivity|].
    pose proof (Nat.div_mod_eq marg 2) as E.
    pose proof (Nat.mod_upper_bound marg 2 ltac:(lia)) as U.
    assert (Hodd : Nat.odd marg = true -> marg mod 2 = 1).
    { intros Ho. rewrite <- Nat.bit0_mod, Nat.bit0_odd, Ho. reflexivity. }
    assert (Heven : Nat.odd marg = false -> marg mod 2 = 0).
    { intros Ho. rewrite <- Nat.bit0_mod, Nat.bit0_odd, Ho. reflexivity. }
    unfold left. destruct (Nat.odd marg); cbn [andb].
    + specialize (Hodd eq_refl). destruct (Nat.odd width); lia.
    + specialize (Heven eq_refl). lia.
Qed.




End PanelFacts.


(** ** [space.py]: the sections of a display *)

Section DisplayFacts.
Context {R : Runtime}.
Import space.

(** The lines up to the type line. *)
Lemma Event_display_QUIET (e : Event) :
  Event_display e QUIET
  = (map print_mission_name (mission_name_lines e)
     ++ [print_location e; FILLER; print_date e])
    ++ [print_type (lit "    Event Type: ") e].
Proof.
  unfold Event_display. cbn [Verbosity_eqb Verbosity_value Nat.eqb negb].
  now rewrite <- !app_assoc.
Qed.

Lemma Event_display_not_QUIET (e : Event) (v : Verbosity) :
  v <> QUIET ->
  Event_display e v
  = Event_display e QUIET
    ++ [FILLER] ++ map print_description (mission_description_lines e).
Proof.
  intros Hv. unfold Event_display.
  destruct v; [congruence| |];
    cbn [Verbosity_eqb Verbosity_value Nat.eqb negb];
    now rewrite <- !app_assoc.
Qed.

Lemma Launch_display_QUIET (l : Launch) :
  Launch_display l QUIET
  = (map print_mission_name (mission_name_lines (event l))
     ++ [print_location (event l); FILLER; print_date (event l)])
    ++ [print_type (lit "    Launch Type: ") (event l)].
Proof.
  unfold Launch_display. cbn [Verbosity_eqb Verbosity_value Nat.eqb negb].
  now rewrite <- !app_assoc.
Qed.

Lemma Launch_display_NORMAL (l : Launch) :
  Launch_display l NORMAL
  = Launch_display l QUIET
    ++ [FILLER] ++ map print_description (mission_description_lines (event l)).
Proof.
  unfold Launch_display. cbn [Verbosity_eqb Verbosity_value Nat.eqb negb].
  now rewrite <- !app_assoc.
Qed.

Lemma Launch_display_VERBOSE (l : Launch) :
  Launch_display l VERBOSE
  = Launch_display l QUIET
    ++ ([FILLER] ++ Rocket_display (rocket l))
    ++ [FILLER] ++ map print_description (mission_description_lines (event l)).
Proof.
  unfold Launch_display. cbn [Verbosity_eqb Verbosity_value Nat.eqb negb].
  now rewrite <- !app_assoc.
Qed.






End DisplayFacts.






(** ** In-order line-subsets *)

Section SublistFacts.
Context {A : Type}.

Lemma sublist_refl (l : list A) : sublist l l.
Proof. induction l; constructor; assumption. Qed.

Lemma sublist_suffix (l1 l2 : list A) : sublist l2 (l1 ++ l2).
Proof. induction l1; simpl; [apply sublist_refl|now constructor]. Qed.

Lemma sublist_app (a b c d : list A) :
  sublist a b -> sublist c d -> sublist (a ++ c) (b ++ d).
Proof.
  intros Hab Hcd. induction Hab; simpl; [assumption| |]; now constructor.
Qed.

Lemma sublist_prefix (l1 l2 : list A) : sublist l1 (l1 ++ l2).
Proof.
  rewrite <- (app_nil_r l1) at 1. apply sublist_app; [apply sublist_refl|].
  induction l2; now constructor.
Qed.

Lemma longer_not_eq (l1 l2 : list A) : length l1 < length l2 -> l1 <> l2.
Proof. intros H ->. lia. Qed.

End SublistFacts.

(** C5 as stated fails: for an event, the display at NORMAL is the
    display at VERBOSE, not a strict subset of it. *)
Lemma C5_event_NORMAL_not_strictly_below_VERBOSE :
  ~ strict_sublist (space.Event_display demo_event space.NORMAL)
                   (space.Event_display demo_event space.VERBOSE).
Proof. intros [_ H]. apply H. reflexivity. Qed.

(** C5, amended.  For every event and every launch, the lines displayed
    at QUIET are a strict in-order line-subset of the lines displayed at
    NORMAL, and these an in-order line-subset of the lines displayed at
    VERBOSE: a strict one for a launch, while for an event the displays
    at NORMAL and VERBOSE are the same.  The type line is displayed at
    all three levels. *)
Theorem C5_verbosity_monotone {R : Runtime} :
  (forall e : space.Event,
     strict_sublist (space.Event_display e space.QUIET)
                    (space.Event_display e space.NORMAL)
     /\ sublist (space.Event_display e space.NORMAL)
                (space.Event_display e space.VERBOSE)
     /\ space.Event_display e space.NORMAL
        = space.Event_display e space.VERBOSE
     /\ forall v,
          In (space.print_type (lit "    Event Type: ") e)
             (space.Event_display e v))
  /\ (forall l : space.Launch,
        strict_sublist (space.Launch_display l space.QUIET)
                       (space.Launch_display l space.NORMAL)
        /\ strict_sublist (space.Launch_display l space.NORMAL)
                          (space.Launch_display l space.VERBOSE)
        /\ forall v,
             In (space.print_type (lit "    Launch Type: ") (space.event l))
                (space.Launch_display l v)).
Proof.
  split.
  - intros e. split; [|split; [|split]].
    + rewrite (@Event_display_not_QUIET _ e space.NORMAL) by discriminate.
      split; [apply sublist_prefix|]. apply longer_not_eq.
      rewrite length_app. simpl. lia.
    + apply sublist_refl.
    + reflexivity.
    + intros v.
      assert (Hq : In (space.print_type (lit "    Event Type: ") e)
                      (space.Event_display e space.QUIET)).
      { rewrite Event_display_QUIET. apply in_or_app. right. now left. }
      destruct v; [exact Hq| |];
        rewrite Event_display_not_QUIET by discriminate;
        apply in_or_app; now left.
  - intros l. split; [|split].
    + rewrite Launch_display_NORMAL.
      split; [apply sublist_prefix|]. apply longer_not_eq.
      rewrite length_app. simpl. lia.
    + rewrite Launch_display_NORMAL, Launch_display_VERBOSE. split.
      * apply sublist_app; [apply sublist_refl|apply sublist_suffix].
      * apply longer_not_eq. rewrite !length_app. simpl. lia.
    + intros v.
      assert (Hq : In (space.print_type (lit "    Launch Type: ")
                         (space.event l))
                      (space.Launch_display l space.QUIET)).
      { rewrite Launch_display_QUIET. apply in_or_app. right. now left. }
      destruct v; [exact Hq| |].
      * rewrite Launch_display_NORMAL. apply in_or_app. now left.
      * rewrite Launch_display_VERBOSE. apply in_or_app. now left.
Qed.




(** ** [space.py]: every line between its borders *)

Section FrameFacts.
Context {R : Runtime}.
Import space.
Variable P : str -> Prop.








End FrameFacts.

Section WidthFacts.
Context {R : Runtime}.
Import space.








End WidthFacts.

Unset Implicit Arguments.

(** ** Words *)

Section WordsFacts.









End WordsFacts.

Section TidyFacts.
Context {R : Runtime}.
Import textwrap.




Lemma blank_strip_is_empty (chunk : str) :
  blank chunk -> strip_is_empty chunk = true.
Proof.
  unfold blank, strip_is_empty. induction 1 as [|c s Hc _ IH]; [reflexivity|].
  subst c. simpl. exact IH.
Qed.






End TidyFacts.

Section RunFacts.
Context {R : Runtime}.
Import textwrap.



(** *** The chunks of a text without hyphens *)







Lemma longest_run_from_le (s : str) :
  forall k, k <= longest_run_from k s.
Proof.
  induction s as [|c s IH]; intros k; simpl; [lia|].
  destruct (is_whitespace c); [lia|]. specialize (IH (S k)). lia.
Qed.






End RunFacts.

Section MungeFacts.
Context {R : Runtime}.
Import textwrap.











End MungeFacts.

Set Implicit Arguments.



Lemma not_In_forallb (x : char) (s : str) :
  forallb (fun c => negb (c =? x)%N) s = true -> ~ In x s.
Proof.
  intros H Hin. rewrite forallb_forall in H. specialize (H _ Hin).
  now rewrite N.eqb_refl in H.
Qed.





(** ** The styles on a terminal *)

Section TerminalFacts.
Import Terminal.





End TerminalFacts.

Section EscFacts.
Context {R : Runtime}.
Import space.











End EscFacts.




(** * Further properties *)

(** ** A text that fits on one line *)

Section OneLineFacts.
Context {R : Runtime}.
Import textwrap.

Lemma expandtabs_from_no_tab (tabsize : nat) (s : str) :
  ~ In TAB s -> forall line_pos, expandtabs_from tabsize line_pos s = s.
Proof.
  induction s as [|c s IH]; intros H line_pos; [reflexivity|].
  cbn [expandtabs_from]. destruct (N.eqb_spec c TAB) as [->|_].
  - exfalso. apply H. now left.
  - rewrite IH; [reflexivity|]. intros Hin. apply H. now right.
Qed.

Lemma one_line_spec (room : nat) (text : str) :
  one_line room text = true ->
  text <> [] /\ length text <= room
  /\ (forall c, In c text -> is_whitespace c = true -> c = SPACE)
  /\ py_isspace (last text SPACE) = false.
Proof.
  unfold one_line. intros H.
  apply andb_true_iff in H as [H Hlast].
  apply andb_true_iff in H as [H Hws].
  apply andb_true_iff in H as [Hne Hlen].
  split; [now destruct text|]. split; [now apply Nat.leb_le|]. split.
  - intros c Hin Hc. rewrite forallb_forall in Hws. specialize (Hws c Hin).
    rewrite Hc in Hws. cbn [negb orb] in Hws. now apply N.eqb_eq.
  - now apply negb_true_iff.
Qed.

Lemma munge_plain (text : str) :
  (forall c, In c text -> is_whitespace c = true -> c = SPACE) ->
  _munge_whitespace text = text.
Proof.
  intros H. unfold _munge_whitespace, expandtabs.
  rewrite expandtabs_from_no_tab.
  - unfold translate_whitespace. rewrite <- (map_id text) at 2.
    apply map_ext_in. intros c Hin. destruct (is_whitespace c) eqn:E; [|reflexivity].
    symmetry. now apply H.
  - intros Hin. specialize (H TAB Hin eq_refl). discriminate H.
Qed.

Lemma fill_line_all (width : nat) (chunks : list str) :
  forall cur_line cur_len,
    cur_len + total_len chunks <= width ->
    fill_line width cur_line cur_len chunks
    = (cur_line ++ chunks, cur_len + total_len chunks, []).
Proof.
  induction chunks as [|c chunks IH]; intros cur_line cur_len H.
  - unfold total_len. simpl. now rewrite app_nil_r, Nat.add_0_r.
  - rewrite total_len_cons in H. cbn [fill_line].
    destruct (Nat.leb_spec (cur_len + length c) width) as [_|?]; [|lia].
    rewrite IH by lia. rewrite <- app_assoc, total_len_cons. f_equal. f_equal. lia.
Qed.

Lemma last_app_nonempty (a b : str) (d : char) :
  b <> [] -> last (a ++ b) d = last b d.
Proof.
  intros Hb. induction a as [|x a IH]; [reflexivity|].
  cbn [app]. destruct (a ++ b) eqn:E.
  - apply app_eq_nil in E. tauto.
  - cbn [last]. exact IH.
Qed.

Lemma last_concat (chunks : list str) (d : char) :
  chunks <> [] -> nonempty_chunks chunks ->
  last (concat chunks) d = last (last chunks []) d.
Proof.
  induction chunks as [|c chunks IH]; intros Hne Hall; [congruence|].
  inversion Hall as [|? ? Hc Hrest]; subst.
  destruct chunks as [|c' chunks'].
  - simpl. now rewrite app_nil_r.
  - change (concat (c :: c' :: chunks')) with (c ++ concat (c' :: chunks')).
    change (last (c :: c' :: chunks') []) with (last (c' :: chunks') []).
    rewrite <- IH by (auto; discriminate).
    apply last_app_nonempty.
    inversion Hrest; subst. simpl. destruct c'; [congruence|discriminate].
Qed.

Lemma strip_is_empty_last (chunk : str) :
  chunk <> [] -> py_isspace (last chunk SPACE) = false ->
  strip_is_empty chunk = false.
Proof.
  unfold strip_is_empty. induction chunk as [|c s IH]; intros Hne H; [congruence|].
  destruct s as [|c' s'].
  - simpl in *. now rewrite H.
  - change (forallb py_isspace (c :: c' :: s'))
      with (py_isspace c && forallb py_isspace (c' :: s')).
    rewrite IH; [apply andb_false_r|discriminate|exact H].
Qed.

(** [textwrap.wrap] of a text that can stand on one line as it is: that
    line, after the indent. *)
Lemma wrap_one_line (text : str) (width : nat)
    (initial_indent subsequent_indent : str) :
  length initial_indent <= width ->
  one_line (width - length initial_indent) text = true ->
  wrap text width initial_indent subsequent_indent = [initial_indent ++ text].
Proof.
  intros Hi H. apply one_line_spec in H as (Hne & Hlen & Hws & Hlast).
  unfold wrap, _wrap_chunks, _split_chunks. rewrite (munge_plain _ Hws).
  pose proof (_split_concat text) as Hcat.
  pose proof (_split_nonempty text) as Hall.
  set (chunks := _split text) in *.
  assert (Hchunks : chunks <> []).
  { intros E. rewrite E in Hcat. simpl in Hcat. congruence. }
  assert (Hround : wrap_round (width - length initial_indent) false chunks
                   = ([], chunks)).
  { unfold wrap_round. destruct chunks as [|top below]; [congruence|].
    rewrite andb_false_r.
    rewrite fill_line_all
      by (unfold total_len; rewrite Hcat; simpl; lia).
    cbn [app]. f_equal. unfold drop_trailing.
    rewrite strip_is_empty_last; [reflexivity| |].
    - apply Forall_forall with (x := last (top :: below) []) in Hall; [exact Hall|].
      destruct (@exists_last _ (top :: below) ltac:(discriminate))
        as (l' & a & E).
      rewrite E, last_last. apply in_or_app. right. now left.
    - rewrite <- last_concat by (auto; discriminate). now rewrite Hcat. }
  cbn [wrap_loop]. destruct chunks as [|top below]; [congruence|].
  cbn [is_nonempty]. rewrite Hround. cbn [is_nonempty app].
  rewrite Hcat. now destruct (total_len (top :: below)).
Qed.

End OneLineFacts.



(** X2.  A description that is not empty, at most 84 characters long,
    with no whitespace but spaces and none at its end, is printed on one
    line, after the indent of four spaces; at a verbosity other than
    QUIET the display of the event ends with the filler line and that
    line. *)
Theorem X2_short_description_one_line {R : Runtime}
    (e : space.Event) (v : space.Verbosity) :
  one_line (space.MAX_LINE_LENGTH - 4) (space.mission_description e) = true ->
  space.mission_description_lines e
  = [lit "    " ++ space.mission_description e]
  /\ (v <> space.QUIET ->
      space.Event_display e v
      = space.Event_display e space.QUIET
        ++ [ space.FILLER;
             space.print_description
               (lit "    " ++ space.mission_description e) ]).
Proof.
  intros H.
  assert (E : space.mission_description_lines e
              = [lit "    " ++ space.mission_description e]).
  { unfold space.mission_description_lines. apply wrap_one_line; [|exact H].
    unfold space.MAX_LINE_LENGTH. simpl. lia. }
  split; [exact E|]. intros Hv.
  rewrite (Event_display_not_QUIET e Hv), E. reflexivity.
Qed.

Lemma X2_short_description_one_line_witness :
  (one_line (space.MAX_LINE_LENGTH - 4) (space.mission_description demo_event)
   = true
   /\ space.NORMAL <> space.QUIET)
  /\ space.Event_display demo_event space.NORMAL
     = space.Event_display demo_event space.QUIET
       ++ [ space.FILLER;
            space.print_description
              (lit "    " ++ space.mission_description demo_event) ].
Proof.
  assert (H : one_line (space.MAX_LINE_LENGTH - 4)
                (space.mission_description demo_event) = true) by reflexivity.
  assert (Hv : space.NORMAL <> space.QUIET) by discriminate.
  split; [exact (conj H Hv)|].
  exact (proj2 (@X2_short_description_one_line demo_runtime demo_event
                  space.NORMAL H) Hv).
Defined.

(** X3.  A launch is displayed as the event of its fields is, but for
    the label of the type line and, at VERBOSE, the filler line and the
    panel of the rocket right after the type line. *)
Theorem X3_launch_as_its_event {R : Runtime}
    (l : space.Launch) (v : space.Verbosity) :
  exists head tail,
    space.Event_display (space.event l) v
    = head ++ [space.print_type (lit "    Event Type: ") (space.event l)]
      ++ tail
    /\ space.Launch_display l v
       = head ++ [space.print_type (lit "    Launch Type: ") (space.event l)]
         ++ (match v with
             | space.VERBOSE =>
                 space.FILLER :: space.Rocket_display (space.rocket l)
             | _ => []
             end)
         ++ tail.
Proof.
  exists (map space.print_mission_name
              (space.mission_name_lines (space.event l))
          ++ [space.print_location (space.event l); space.FILLER;
              space.print_date (space.event l)]).
  destruct v.
  - exists []. rewrite Event_display_QUIET, Launch_display_QUIET. now split.
  - exists ([space.FILLER]
            ++ map space.print_description
                   (space.mission_description_lines (space.event l))).
    rewrite (@Event_display_not_QUIET _ (space.event l) space.NORMAL)
      by discriminate.
    rewrite Launch_display_NORMAL, Event_display_QUIET, Launch_display_QUIET.
    split; now rewrite <- !app_assoc.
  - exists ([space.FILLER]
            ++ map space.print_description
                   (space.mission_description_lines (space.event l))).
    rewrite (@Event_display_not_QUIET _ (space.event l) space.VERBOSE)
      by discriminate.
    rewrite Launch_display_VERBOSE, Event_display_QUIET, Launch_display_QUIET.
    split; now rewrite <- !app_assoc.
Qed.

(** ** The panel in its place *)

Section AlignFacts.
Context {R : Runtime}.
Import space.

Lemma center_in_line (s : str) :
  length s = CHART_WIDTH + 2 ->
  center s MAX_LINE_LENGTH SPACE = repeat SPACE 13 ++ s ++ repeat SPACE 14.
Proof. intros H. unfold center. rewrite H. reflexivity. Qed.

Lemma center_full (s : str) (width : nat) :
  length s = width -> center s width SPACE = s.
Proof. intros H. unfold center. rewrite H, Nat.leb_refl. reflexivity. Qed.

Lemma center_cell_length (s : str) (width : nat) :
  length s <= width -> length (center s width SPACE) = width.
Proof. intros H. rewrite length_center. lia. Qed.

Lemma _generate_chart_line_aligned (left right : str) :
  length left <= CHART_WIDTH / 2 -> length right <= CHART_WIDTH / 2 ->
  aligned_row left right (_generate_chart_line left right).
Proof.
  intros Hl Hr. change (CHART_WIDTH / 2) with 29 in *.
  exists (center left 29 SPACE), (center right 29 SPACE).
  pose proof (center_cell_length left Hl) as Ll.
  pose proof (center_cell_length right Hr) as Lr.
  split; [|repeat split; auto using center_centered_in].
  unfold _generate_chart_line. cbv zeta. change (CHART_WIDTH / 2) with 29.
  rewrite (@center_full (center left 29 SPACE ++ [BOX_V] ++ center right 29 SPACE)
             CHART_WIDTH)
    by (rewrite !length_app, Ll, Lr; reflexivity).
  rewrite center_in_line
    by (rewrite !length_app, Ll, Lr; reflexivity).
  now rewrite <- !app_assoc.
Qed.

Lemma aligned_row_band (left right line : str) :
  aligned_row left right line -> aligned_band line.
Proof.
  intros (cell_l & cell_r & -> & _ & Ll & _ & Lr).
  exists BOX_V, (cell_l ++ [BOX_V] ++ cell_r), BOX_V.
  split; [now rewrite <- !app_assoc|].
  split; [rewrite !length_app, Ll, Lr; reflexivity|].
  split; now left.
Qed.

Lemma chart_rule_aligned (a b : char) :
  In a chart_joints -> In b chart_joints -> aligned_band (chart_rule a b).
Proof.
  intros Ha Hb. exists a, (repeat BOX_H CHART_WIDTH), b.
  split; [|split; [apply repeat_length|now split]].
  unfold chart_rule. rewrite center_in_line
    by (rewrite !length_app, repeat_length; unfold CHART_WIDTH; simpl; lia).
  now rewrite <- !app_assoc.
Qed.

Lemma chart_title_aligned (r : Rocket) :
  length (name r) <= CHART_WIDTH -> aligned_band (chart_title r).
Proof.
  intros H. exists BOX_V, (center (name r) CHART_WIDTH SPACE), BOX_V.
  pose proof (center_cell_length (name r) H) as Ln.
  split; [|split; [exact Ln|split; now left]].
  unfold chart_title. rewrite center_in_line
    by (rewrite !length_app, Ln; unfold CHART_WIDTH; simpl; lia).
  now rewrite <- !app_assoc.
Qed.

End AlignFacts.

(** X4.  When the name of the rocket is at most 59 characters long and
    the text of every cell at most 29, the panel is a rectangle in its
    place: every one of its lines has, after the outer border, 13
    spaces, the chart from its left border to its right border with 59
    characters between them, and 14 spaces before the outer border; and
    every data row has its two cells 29 characters wide, so that the
    dividers of the five rows stand in one column. *)
Theorem X4_panel_aligned {R : Runtime} (r : space.Rocket) :
  length (space.name r) <= space.CHART_WIDTH ->
  Forall (fun cells : str * str =>
            length (fst cells) <= space.CHART_WIDTH / 2
            /\ length (snd cells) <= space.CHART_WIDTH / 2)
         (panel_cells r) ->
  Forall aligned_band (space.Rocket_display r)
  /\ Forall (fun cells : str * str =>
               In (space._generate_chart_line (fst cells) (snd cells))
                  (space.Rocket_display r)
               /\ aligned_row (fst cells) (snd cells)
                    (space._generate_chart_line (fst cells) (snd cells)))
            (panel_cells r).
Proof.
  intros Hname Hcells. unfold panel_cells in *.
  repeat match goal with
         | H : Forall _ (_ :: _) |- _ => inversion_clear H
         end.
  repeat match goal with
         | H : _ /\ _ |- _ => destruct H
         end.
  cbn [fst snd] in *.
  split.
  - assert (Hrule : forall a b,
              In a chart_joints -> In b chart_joints ->
              forall lines,
                Forall aligned_band lines ->
                Forall aligned_band (space.chart_rule a b :: lines)).
    { intros a b Ha Hb lines Hl. constructor; [|exact Hl].
      now apply chart_rule_aligned. }
    assert (Hrow : forall left right,
              length left <= 29 -> length right <= 29 ->
              forall lines,
                Forall aligned_band lines ->
                Forall aligned_band
                  (space._generate_chart_line left right :: lines)).
    { intros left right Hl Hr lines Hlines. constructor; [|exact Hlines].
      eapply aligned_row_band. now apply _generate_chart_line_aligned. }
    unfold space.Rocket_display, space.INTER_CELL_DIVIDER.
    apply Hrule; [simpl; tauto|simpl; tauto|].
    apply Forall_cons; [now apply chart_title_aligned|].
    apply Hrule; [simpl; tauto|simpl; tauto|]. apply Hrow; [assumption..|].
    apply Hrule; [simpl; tauto|simpl; tauto|]. apply Hrow; [assumption..|].
    apply Hrule; [simpl; tauto|simpl; tauto|]. apply Hrow; [assumption..|].
    apply Hrule; [simpl; tauto|simpl; tauto|]. apply Hrow; [assumption..|].
    apply Hrule; [simpl; tauto|simpl; tauto|]. apply Hrow; [assumption..|].
    apply Hrule; [simpl; tauto|simpl; tauto|]. apply Forall_nil.
  - repeat apply Forall_cons; try apply Forall_nil; cbn [fst snd];
      (split; [|apply _generate_chart_line_aligned; assumption]).
    + apply nth_error_In with (n := 3). reflexivity.
    + apply nth_error_In with (n := 5). reflexivity.
    + apply nth_error_In with (n := 7). reflexivity.
    + apply nth_error_In with (n := 9). reflexivity.
    + apply nth_error_In with (n := 11). reflexivity.
Qed.

Lemma X4_panel_aligned_witness :
  (length (space.name demo_rocket) <= space.CHART_WIDTH
   /\ Forall (fun cells : str * str =>
                length (fst cells) <= space.CHART_WIDTH / 2
                /\ length (snd cells) <= space.CHART_WIDTH / 2)
             (panel_cells demo_rocket))
  /\ Forall aligned_band (space.Rocket_display demo_rocket).
Proof.
  assert (Hn : length (space.name demo_rocket) <= space.CHART_WIDTH).
  { unfold space.CHART_WIDTH. simpl. lia. }
  assert (Hc : Forall (fun cells : str * str =>
                         length (fst cells) <= space.CHART_WIDTH / 2
                         /\ length (snd cells) <= space.CHART_WIDTH / 2)
                      (panel_cells demo_rocket)).
  { change (space.CHART_WIDTH / 2) with 29.
    repeat apply Forall_cons; try apply Forall_nil; simpl; lia. }
  split; [exact (conj Hn Hc)|].
  exact (proj1 (@X4_panel_aligned demo_runtime demo_rocket Hn Hc)).
Defined.

(** ** The colours of the lines *)

Section ColourFacts.
Context {R : Runtime}.
Import Terminal.


End ColourFacts.



(** ** Kinds of whitespace *)

Section WhitespaceFacts.
Context {R : Runtime}.
Import textwrap.

Lemma munge_no_tab (text : str) :
  ~ In TAB text -> _munge_whitespace text = translate_whitespace text.
Proof.
  intros H. unfold _munge_whitespace, expandtabs.
  now rewrite expandtabs_from_no_tab.
Qed.

Lemma wrap_same_words (text text' : str) (width : nat)
    (initial_indent subsequent_indent : str) :
  ~ In TAB text -> ~ In TAB text' ->
  translate_whitespace text = translate_whitespace text' ->
  wrap text width initial_indent subsequent_indent
  = wrap text' width initial_indent subsequent_indent.
Proof.
  intros H H' E. unfold wrap, _split_chunks.
  now rewrite (@munge_no_tab text H), (@munge_no_tab text' H'), E.
Qed.

End WhitespaceFacts.

(** X6.  Which whitespace characters stand between the words does not
    matter: two events, or launches, whose names and descriptions hold
    no tab and differ only in that, one having a line feed, carriage
    return, vertical tab or form feed where the other has a space or
    another of them, are displayed the same. *)
Theorem X6_whitespace_kinds {R : Runtime}
    (name name' description description' location type : str)
    (date : datetime) (rocket : space.Rocket) (v : space.Verbosity) :
  ~ In TAB name -> ~ In TAB name' ->
  ~ In TAB description -> ~ In TAB description' ->
  textwrap.translate_whitespace name = textwrap.translate_whitespace name' ->
  textwrap.translate_whitespace description
  = textwrap.translate_whitespace description' ->
  let e := space.Build_Event name location date description type in
  let e' := space.Build_Event name' location date description' type in
  space.Event_display e v = space.Event_display e' v
  /\ space.Launch_display (space.Build_Launch e rocket) v
     = space.Launch_display (space.Build_Launch e' rocket) v.
Proof.
  intros Hn Hn' Hd Hd' En Ed e e'.
  assert (Enl : space.mission_name_lines e = space.mission_name_lines e').
  { unfold space.mission_name_lines. now apply wrap_same_words. }
  assert (Edl : space.mission_description_lines e
                = space.mission_description_lines e').
  { unfold space.mission_description_lines. now apply wrap_same_words. }
  unfold space.Event_display, space.Launch_display.
  cbn [space.event space.rocket]. rewrite Enl, Edl. split; reflexivity.
Qed.

Lemma X6_whitespace_kinds_witness :
  (~ In TAB (lit "Starlink Group") /\ ~ In TAB [83; 116; 10; 71]%N
   /\ ~ In TAB [83; 116; 32; 71]%N)
  /\ space.Event_display
       (@space.Build_Event demo_runtime [83; 116; 10; 71]%N
          (lit "Cape Canaveral") (lit "Wed") (lit "Starlink Group")
          (lit "Communications"))
       space.NORMAL
     = space.Event_display
         (@space.Build_Event demo_runtime [83; 116; 32; 71]%N
            (lit "Cape Canaveral") (lit "Wed") (lit "Starlink Group")
            (lit "Communications"))
         space.NORMAL.
Proof.
  assert (H1 : ~ In TAB (lit "Starlink Group")).
  { apply not_In_forallb. reflexivity. }
  assert (H2 : ~ In TAB [83; 116; 10; 71]%N).
  { apply not_In_forallb. reflexivity. }
  assert (H3 : ~ In TAB [83; 116; 32; 71]%N).
  { apply not_In_forallb. reflexivity. }
  split; [exact (conj H1 (conj H2 H3))|].
  exact (proj1 (@X6_whitespace_kinds demo_runtime
                  [83; 116; 10; 71]%N [83; 116; 32; 71]%N
                  (lit "Starlink Group") (lit "Starlink Group")
                  (lit "Cape Canaveral") (lit "Communications") (lit "Wed")
                  demo_rocket space.NORMAL H2 H3 H1 H1 eq_refl eq_refl)).
Defined.

(** ** How many lines *)

Section CountFacts.
Context {R : Runtime}.
Import textwrap.







End CountFacts.


(** X8.  A text that is too long is never cut: its line is longer than
    the others by what the text has too much.  A data row of the panel
    is 90 characters long, borders included, and longer by what the two
    cells, each 29 wide at least, have above 85 together; the title row
    by what the name has above 86; the location line, with its ten
    characters of colour codes, is 100 long and longer by what the
    location has above 88; the type line is 90 long and longer by what
    label and type have above 88. *)
Theorem X8_overflow_is_exact {R : Runtime} :
  (forall left right : str,
     length (space._generate_chart_line left right)
     = 90 + (Nat.max 29 (length left) + Nat.max 29 (length right) - 85))
  /\ (forall r : space.Rocket,
        length (space.chart_title r)
        = 90 + (length (space.name r) - 86))
  /\ (forall e : space.Event,
        length (space.print_location e)
        = 100 + (length (space.location e) - 88))
  /\ (forall (label : str) (e : space.Event),
        length (space.print_type label e)
        = 90 + (length (label ++ space.mission_type e) - 88)).
Proof.
  split; [|split; [|split]].
  - intros left right. unfold space._generate_chart_line. cbv zeta.
    change (space.CHART_WIDTH / 2) with 29.
    rewrite !length_app, length_center, !length_app, length_center,
      !length_app, !length_center.
    unfold space.MAX_LINE_LENGTH, space.CHART_WIDTH. simpl length. lia.
  - intros r. unfold space.chart_title.
    rewrite !length_app, length_center, !length_app, length_center.
    unfold space.MAX_LINE_LENGTH, space.CHART_WIDTH. simpl length. lia.
  - intros e. unfold space.print_location.
    rewrite !length_app, length_ljust.
    unfold space.MAX_LINE_LENGTH. simpl length. lia.
  - intros label e. unfold space.print_type.
    set (text := label ++ space.mission_type e).
    rewrite !length_app, length_ljust.
    unfold space.MAX_LINE_LENGTH. simpl length. lia.
Qed.
